(** * Environment helpers of the NestJS GraphQL boilerplate

    A shallow embedding of [src/common/helper/env.helper.ts]:

    - [getEnvPath] builds the path of the [.<mode>.env] file from the
      ambient [process.env.NODE_ENV];
    - [processEnvVars] copies a configuration object, turns the two-character
      sequence backslash-n into a line feed in the JWT key entries and moves
      the lowercase JWT entries to their uppercase names.

    JavaScript objects live in a heap and are passed by reference, so that the
    copy made by the object spread and the mutations of that copy are told
    apart from the caller's object.  Operations that JavaScript can abort
    with an exception return a [result]. *)

From Stdlib Require Import ZArith String Ascii.
From stdpp Require Import gmap strings list fin_maps.

Local Open Scope Z_scope.

(** ** JavaScript values *)

Definition loc := positive.

(** A value of TypeScript type [unknown].  A Number is its IEEE-754 binary64
    bit pattern; objects, arrays and functions are references into the heap. *)
Inductive value : Type :=
| VUndefined
| VNull
| VBoolean (b : bool)
| VNumber (bits : Z)
| VBigInt (z : Z)
| VString (s : string)
| VSymbol (id : positive)
| VObject (l : loc)
| VFunction (l : loc).

#[global] Instance value_eq_dec : EqDecision value.
Proof. solve_decision. Defined.

(** [+0] and [-0]: every bit but the sign is clear. *)
Definition number_is_zero (bits : Z) : bool :=
  Z.land bits (Z.ones 63) =? 0.

(** NaN: exponent all ones, fraction not zero. *)
Definition number_is_nan (bits : Z) : bool :=
  (Z.land (Z.shiftr bits 52) (Z.ones 11) =? Z.ones 11)
  && negb (Z.land bits (Z.ones 52) =? 0).

Definition string_is_empty (s : string) : bool :=
  match s with EmptyString => true | String _ _ => false end.

(** ToBoolean: what [if (v)] and [v && ...] test. *)
Definition truthy (v : value) : bool :=
  match v with
  | VUndefined | VNull => false
  | VBoolean b => b
  | VNumber bits => negb (number_is_zero bits || number_is_nan bits)
  | VBigInt z => negb (z =? 0)
  | VString s => negb (string_is_empty s)
  | VSymbol _ | VObject _ | VFunction _ => true
  end.

Definition typeof (v : value) : string :=
  match v with
  | VUndefined => "undefined"
  | VNull => "object"
  | VBoolean _ => "boolean"
  | VNumber _ => "number"
  | VBigInt _ => "bigint"
  | VString _ => "string"
  | VSymbol _ => "symbol"
  | VObject _ => "object"
  | VFunction _ => "function"
  end.

(** ** Strings *)

Definition backslash : ascii := "\"%char.
Definition letter_n : ascii := "n"%char.
Definition newline : ascii := "010"%char.

(** [s.replace(/\n/g, '\n')]: the matches of the two-character pattern are
    taken from left to right without overlap and each becomes one line feed. *)
Fixpoint replace_newlines (s : string) : string :=
  match s with
  | EmptyString => EmptyString
  | String c rest =>
      if Ascii.eqb c backslash then
        match rest with
        | String c' rest' =>
            if Ascii.eqb c' letter_n then String newline (replace_newlines rest')
            else String c (replace_newlines rest)
        | EmptyString => String c (replace_newlines rest)
        end
      else String c (replace_newlines rest)
  end.

(** Whether the pattern matches at the front of [String c rest]. *)
Definition matches_here (c : ascii) (rest : string) : bool :=
  Ascii.eqb c backslash
  && match rest with
     | String c' _ => Ascii.eqb c' letter_n
     | EmptyString => false
     end.

(** ** Heap, exceptions and the monad of object operations *)

(** An object is the finite map of its own enumerable string-keyed data
    properties; enumeration order is not observed by the code and not kept. *)
Abbreviation object := (gmap string value).
Abbreviation heap := (gmap loc (gmap string value)).

Inductive error : Type :=
| TypeError
| DanglingReference.

Inductive result (A : Type) : Type :=
| Ok (a : A)
| Throw (e : error).
Arguments Ok {A} a.
Arguments Throw {A} e.

Definition M (A : Type) : Type := heap -> result (A * heap).

Definition ret {A} (a : A) : M A := fun h => Ok (a, h).

Definition bind {A B} (m : M A) (k : A -> M B) : M B :=
  fun h => match m h with
           | Ok (a, h') => k a h'
           | Throw e => Throw e
           end.

Definition throw {A} (e : error) : M A := fun _ => Throw e.

#[global] Instance M_ret : MRet M := @ret.
#[global] Instance M_bind : MBind M := fun A B k m => bind m k.

(** Reading [o[k]] on a plain object: the own property, or [undefined].  None
    of the names read by this file is defined on [Object.prototype]. *)
Definition own (o : gmap string value) (k : string) : value :=
  default VUndefined (o !! k).

(** [{ ...src }]: a new object with the own properties of [src]. *)
Definition spread (src : loc) : M loc :=
  fun h => match h !! src with
           | Some o => let l := fresh (dom h) in Ok (l, <[l := o]> h)
           | None => Throw DanglingReference
           end.

(** [l[k]] *)
Definition get (l : loc) (k : string) : M value :=
  fun h => match h !! l with
           | Some o => Ok (own o k, h)
           | None => Throw DanglingReference
           end.

(** [l[k] = v] *)
Definition set (l : loc) (k : string) (v : value) : M unit :=
  fun h => match h !! l with
           | Some o => Ok (tt, <[l := <[k := v]> o]> h)
           | None => Throw DanglingReference
           end.

(** [delete l[k]] *)
Definition delete_property (l : loc) (k : string) : M unit :=
  fun h => match h !! l with
           | Some o => Ok (tt, <[l := delete k o]> h)
           | None => Throw DanglingReference
           end.

(** [v.replace(/\n/g, '\n')].  Only a primitive string has the method in
    this model; on any other value the call is a TypeError. *)
Definition call_replace (v : value) : M value :=
  match v with
  | VString s => mret (VString (replace_newlines s))
  | _ => throw TypeError
  end.

(** [xs.forEach(f)] *)
Fixpoint forEach {A} (xs : list A) (f : A -> M unit) : M unit :=
  match xs with
  | [] => mret tt
  | x :: xs' => f x;; forEach xs' f
  end.

(** ** getEnvPath *)

Section EnvPath.

(** [resolve] of Node's [path] module on one string argument, with the
    working directory of the process fixed. *)
Variable resolve : string -> string.

(** [path.resolve] rejects an argument that is not a string. *)
Definition path_resolve (arg : value) : result string :=
  match arg with
  | VString s => Ok (resolve s)
  | _ => Throw TypeError
  end.

(** A variable of type [string | undefined] as a value, and its
    interpolation into a template literal. *)
Definition env_value (env : option string) : value :=
  from_option VString VUndefined env.

Definition interpolate (env : option string) : string :=
  default "undefined" env.

(** [process.env] is passed explicitly. *)
Definition getEnvPath (process_env : gmap string string) (dest : string)
  : result string :=
  let env : option string := process_env !! "NODE_ENV" in
  let filename : string :=
    if truthy (env_value env) then "." +:+ interpolate env +:+ ".env"
    else ".development.env" in
  path_resolve (VString (dest +:+ "/" +:+ filename)).

End EnvPath.

(** ** processEnvVars *)

Definition multilineVars : list string :=
  [ "JWT_PRIVATE_KEY";
    "JWT_PUBLIC_KEY";
    "JWT_REFRESH_TOKEN_PRIVATE_KEY";
    "jwt_private_key";
    "jwt_public_key";
    "jwt_refresh_token_private_key" ].

(** The body of the [forEach] callback. *)
Definition convertVar (processed : loc) (varName : string) : M unit :=
  v ← get processed varName;
  if truthy v then
    v' ← get processed varName;
    if String.eqb (typeof v') "string" then
      s ← get processed varName;
      r ← call_replace s;
      set processed varName r
    else mret tt
  else mret tt.

Definition convertNewlines (processed : loc) : M unit :=
  forEach multilineVars (convertVar processed).

(** One [if (processed.lower) { processed.UPPER = processed.lower; delete
    processed.lower; }] block. *)
Definition mergeCase (processed : loc) (lower canonical : string) : M unit :=
  v ← get processed lower;
  if truthy v then
    v' ← get processed lower;
    set processed canonical v';;
    delete_property processed lower
  else mret tt.

Definition normalizeCase (processed : loc) : M unit :=
  mergeCase processed "jwt_private_key" "JWT_PRIVATE_KEY";;
  mergeCase processed "jwt_public_key" "JWT_PUBLIC_KEY";;
  mergeCase processed "jwt_refresh_token_private_key"
            "JWT_REFRESH_TOKEN_PRIVATE_KEY".

Definition processEnvVars (config : loc) : M loc :=
  processed ← spread config;
  convertNewlines processed;;
  normalizeCase processed;;
  mret processed.

(** ** The effect of each phase on the copied object

    The loop and the three blocks only touch the object [processed]; what they
    do to its property map is given by the functions below, and
    [processEnvVars_run] ties them to the monadic code. *)

Definition convert_value (v : value) : value :=
  match v with
  | VString s => VString (replace_newlines s)
  | _ => v
  end.

Definition convert_entry (varName : string) (o : gmap string value)
  : gmap string value :=
  if truthy (own o varName) && String.eqb (typeof (own o varName)) "string"
  then <[varName := convert_value (own o varName)]> o
  else o.

Definition converted (o : gmap string value) : gmap string value :=
  foldl (fun acc varName => convert_entry varName acc) o multilineVars.

Definition merge_entry (lower canonical : string) (o : gmap string value)
  : gmap string value :=
  if truthy (own o lower)
  then delete lower (<[canonical := own o lower]> o)
  else o.

Definition case_merged (o : gmap string value) : gmap string value :=
  merge_entry "jwt_refresh_token_private_key" "JWT_REFRESH_TOKEN_PRIVATE_KEY"
    (merge_entry "jwt_public_key" "JWT_PUBLIC_KEY"
       (merge_entry "jwt_private_key" "JWT_PRIVATE_KEY" o)).

Definition normalized (o : gmap string value) : gmap string value :=
  case_merged (converted o).

(** The lowercase names and the canonical names they are merged into. *)
Definition caseVariants : list (string * string) :=
  [ ("jwt_private_key", "JWT_PRIVATE_KEY");
    ("jwt_public_key", "JWT_PUBLIC_KEY");
    ("jwt_refresh_token_private_key", "JWT_REFRESH_TOKEN_PRIVATE_KEY") ].

(** [m] runs without exception on every heap that holds an object at [p], and
    changes that heap only by applying [f] to the object. *)
Definition updates (p : loc) (m : M unit)
    (f : gmap string value -> gmap string value) : Prop :=
  forall (h : gmap loc (gmap string value)) (o : gmap string value),
    h !! p = Some o -> m h = Ok (tt, <[p := f o]> h).

(** The object a run returns, read in the heap it leaves. *)
Definition result_object (r : result (loc * gmap loc (gmap string value)))
  : option (gmap string value) :=
  match r with
  | Ok (l, h) => h !! l
  | Throw _ => None
  end.

(** [processEnvVars] up to the end of the [forEach], before the case blocks. *)
Definition copyAndConvert (config : loc) : M loc :=
  processed ← spread config;
  convertNewlines processed;;
  mret processed.

(** [m || d] for [m : string | undefined]. *)
Definition or_default (m : option string) (d : string) : string :=
  match m with
  | Some s => if string_is_empty s then d else s
  | None => d
  end.

(** ** Sample inputs *)

Definition config_loc : loc := 1%positive.

Definition heap_of (o : gmap string value) : gmap loc (gmap string value) :=
  {[ config_loc := o ]}.

Definition private_key_escaped : gmap string value :=
  {[ "JWT_PRIVATE_KEY" := VString "a\nb" ]}.

Definition public_key_lowercase : gmap string value :=
  {[ "jwt_public_key" := VString "x\ny" ]}.

Definition public_key_lowercase_empty : gmap string value :=
  {[ "jwt_public_key" := VString EmptyString ]}.

Definition both_cases : gmap string value :=
  <[ "JWT_PUBLIC_KEY" := VString "old" ]> public_key_lowercase.

Definition canonical_and_empty_lowercase : gmap string value :=
  {[ "JWT_PUBLIC_KEY" := VString "x\ny";
     "jwt_public_key" := VString EmptyString ]}.

Definition no_jwt_keys : gmap string value :=
  {[ "PORT" := VString "3000"; "DB_HOST" := VString "a\nb" ]}.

Definition numeric_key : gmap string value :=
  {[ "JWT_PUBLIC_KEY" := VNumber 0x4045000000000000; "PORT" := VString "3000" ]}.

(** ** Occurrences of the pattern *)

(** Whether the regular expression [/\\n/] matches somewhere in [s]. *)
Fixpoint contains_escape (s : string) : bool :=
  match s with
  | EmptyString => false
  | String c rest => matches_here c rest || contains_escape rest
  end.

(** A configuration that is already in normal form: the key holds real line
    feeds and the lowercase entry is empty. *)
Definition already_normalized : gmap string value :=
  {[ "JWT_PUBLIC_KEY" := VString (String "x" (String newline "y"));
     "jwt_public_key" := VString EmptyString;
     "PORT" := VString "3000" ]}.

(** The six names in another order, one of them twice. *)
Definition multilineVars_shuffled : list string :=
  [ "jwt_refresh_token_private_key";
    "JWT_PUBLIC_KEY";
    "jwt_public_key";
    "JWT_PRIVATE_KEY";
    "JWT_PUBLIC_KEY";
    "jwt_private_key";
    "JWT_REFRESH_TOKEN_PRIVATE_KEY" ].

(** * Properties *)

(** ** Strings *)

Lemma append_assoc (a b c : string) : (a +:+ b) +:+ c = a +:+ (b +:+ c).
Proof.
  induction a as [|x a IH]; [reflexivity|].
  change (String x ((a +:+ b) +:+ c) = String x (a +:+ (b +:+ c))).
  now rewrite IH.
Qed.

Lemma replace_newlines_match (rest : string) :
  replace_newlines (String backslash (String letter_n rest))
  = String newline (replace_newlines rest).
Proof. reflexivity. Qed.

Lemma replace_newlines_skip (c : ascii) (rest : string) :
  matches_here c rest = false ->
  replace_newlines (String c rest) = String c (replace_newlines rest).
Proof.
  unfold matches_here. intros H. cbn [replace_newlines].
  destruct (Ascii.eqb c backslash); [|reflexivity].
  destruct rest as [|c' rest']; [reflexivity|].
  simpl in H. now rewrite H.
Qed.

Lemma matches_here_inv (c : ascii) (rest : string) :
  matches_here c rest = true ->
  c = backslash /\ exists rest', rest = String letter_n rest'.
Proof.
  unfold matches_here. intros [Hc Hn]%andb_prop.
  apply Ascii.eqb_eq in Hc. split; [exact Hc|].
  destruct rest as [|c' rest']; [discriminate|].
  apply Ascii.eqb_eq in Hn. subst c'. now exists rest'.
Qed.

(** A step of the scan never puts an [n] in front of the output unless the
    input had one there, so an unmatched backslash stays unmatched. *)
Lemma matches_here_replace (c : ascii) (rest : string) :
  matches_here c rest = false ->
  matches_here c (replace_newlines rest) = false.
Proof.
  unfold matches_here. destruct (Ascii.eqb c backslash); [|reflexivity].
  cbn [andb]. intros H.
  destruct rest as [|c' rest']; [reflexivity|].
  destruct (matches_here c' rest') eqn:Hm.
  - apply matches_here_inv in Hm as [-> [rest'' ->]]. reflexivity.
  - rewrite (replace_newlines_skip _ _ Hm). exact H.
Qed.

(** No match is left in the output: a second pass changes nothing. *)
Lemma replace_newlines_idempotent (s : string) :
  replace_newlines (replace_newlines s) = replace_newlines s.
Proof.
  assert (Hlen : forall n s, (String.length s <= n)%nat ->
            replace_newlines (replace_newlines s) = replace_newlines s).
  { clear s. induction n as [|n IH]; intros s Hn.
    - destruct s; simpl in Hn; [reflexivity | lia].
    - destruct s as [|c rest]; [reflexivity|]. simpl in Hn.
      destruct (matches_here c rest) eqn:Hm.
      + apply matches_here_inv in Hm as [-> [rest' ->]]. simpl in Hn.
        rewrite replace_newlines_match.
        rewrite (replace_newlines_skip newline) by reflexivity.
        f_equal. apply IH. lia.
      + rewrite (replace_newlines_skip _ _ Hm).
        rewrite (replace_newlines_skip c)
          by (apply matches_here_replace; exact Hm).
        f_equal. apply IH. lia. }
  apply (Hlen (String.length s)). lia.
Qed.

(** A non-empty string stays non-empty. *)
Lemma replace_newlines_empty (s : string) :
  string_is_empty (replace_newlines s) = string_is_empty s.
Proof.
  destruct s as [|c rest]; [reflexivity|].
  destruct (matches_here c rest) eqn:Hm.
  - apply matches_here_inv in Hm as [-> [rest' ->]]. reflexivity.
  - now rewrite (replace_newlines_skip _ _ Hm).
Qed.

Example replace_newlines_pem :
  replace_newlines "-----BEGIN KEY-----\nMIIB\n-----END KEY-----"
  = "-----BEGIN KEY-----" +:+ String newline
      ("MIIB" +:+ String newline "-----END KEY-----").
Proof. reflexivity. Qed.

(** A backslash in front of a match is kept: backslash, backslash, n becomes
    backslash, line feed. *)
Example replace_newlines_escaped_backslash :
  replace_newlines "\\n" = String backslash (String newline EmptyString).
Proof. reflexivity. Qed.

(** ** Values *)

(** 0, -0 and NaN are falsy; 42 and Infinity are truthy. *)
Example truthy_numbers :
  map (fun bits => truthy (VNumber bits))
    [0; 0x8000000000000000; 0x7ff8000000000000;
     0x4045000000000000; 0x7ff0000000000000]
  = [false; false; false; true; true].
Proof. reflexivity. Qed.

Lemma convert_value_idempotent (v : value) :
  convert_value (convert_value v) = convert_value v.
Proof.
  destruct v; simpl; try reflexivity.
  now rewrite replace_newlines_idempotent.
Qed.

Lemma truthy_convert_value (v : value) :
  truthy (convert_value v) = truthy v.
Proof.
  destruct v; simpl; try reflexivity.
  now rewrite replace_newlines_empty.
Qed.

Lemma typeof_string (v : value) :
  String.eqb (typeof v) "string" = true -> exists s, v = VString s.
Proof. destruct v; simpl; try discriminate. intros _. now eexists. Qed.

Lemma convert_value_not_string (v : value) :
  (forall s, v <> VString s) -> convert_value v = v.
Proof. destruct v; simpl; try reflexivity. intros H. now destruct (H s). Qed.

Lemma convert_value_falsy (v : value) :
  truthy v = false -> convert_value v = v.
Proof.
  destruct v; simpl; try reflexivity.
  destruct s; [reflexivity | discriminate].
Qed.

(** ** Running the object operations *)

Lemma bind_run {A B} (m : M A) (k : A -> M B) h a h' :
  m h = Ok (a, h') -> (m ≫= k) h = k a h'.
Proof. intros H. unfold mbind, M_bind, bind. now rewrite H. Qed.

Lemma get_run (p : loc) (k : string) (h : gmap loc (gmap string value)) o :
  h !! p = Some o -> get p k h = Ok (own o k, h).
Proof. intros H. unfold get. now rewrite H. Qed.

Lemma updates_ret (p : loc) : updates p (mret tt) (fun o => o).
Proof. intros h o H. unfold mret, M_ret, ret. now rewrite insert_id. Qed.

Lemma updates_set (p : loc) (k : string) (v : value) :
  updates p (set p k v) (fun o => <[k := v]> o).
Proof. intros h o H. unfold set. now rewrite H. Qed.

Lemma updates_delete (p : loc) (k : string) :
  updates p (delete_property p k) (fun o => delete k o).
Proof. intros h o H. unfold delete_property. now rewrite H. Qed.

Lemma updates_seq (p : loc) (m1 m2 : M unit) f g :
  updates p m1 f -> updates p m2 g ->
  updates p (m1;; m2) (fun o => g (f o)).
Proof.
  intros H1 H2 h o H.
  rewrite (bind_run _ _ _ _ _ (H1 h o H)).
  rewrite (H2 _ (f o)) by apply lookup_insert_eq.
  now rewrite insert_insert_eq.
Qed.

(** The callback of the loop throws nothing: [replace] is only reached behind
    the [typeof] test. *)
Lemma convertVar_updates (p : loc) (varName : string) :
  updates p (convertVar p varName) (convert_entry varName).
Proof.
  intros h o H. unfold convertVar, convert_entry.
  rewrite (bind_run _ _ _ _ _ (get_run p varName h o H)).
  destruct (truthy (own o varName)); cbn [andb].
  - rewrite (bind_run _ _ _ _ _ (get_run p varName h o H)).
    destruct (String.eqb (typeof (own o varName)) "string") eqn:Ht.
    + rewrite (bind_run _ _ _ _ _ (get_run p varName h o H)).
      destruct (typeof_string _ Ht) as [s Hs]. rewrite Hs.
      cbn [call_replace convert_value].
      erewrite bind_run by reflexivity.
      now apply updates_set.
    + now apply updates_ret.
  - now apply updates_ret.
Qed.

Lemma forEach_updates {A} (p : loc) (body : A -> M unit) step (xs : list A) :
  (forall x, updates p (body x) (step x)) ->
  updates p (forEach xs body) (fun o => foldl (fun acc x => step x acc) o xs).
Proof.
  intros Hbody. induction xs as [|x xs IH]; cbn [forEach foldl].
  - apply updates_ret.
  - apply (updates_seq p _ _ _ _ (Hbody x) IH).
Qed.

Lemma convertNewlines_updates (p : loc) :
  updates p (convertNewlines p) converted.
Proof. apply forEach_updates, convertVar_updates. Qed.

Lemma mergeCase_updates (p : loc) (lower canonical : string) :
  updates p (mergeCase p lower canonical) (merge_entry lower canonical).
Proof.
  intros h o H. unfold mergeCase, merge_entry.
  rewrite (bind_run _ _ _ _ _ (get_run p lower h o H)).
  destruct (truthy (own o lower)).
  - rewrite (bind_run _ _ _ _ _ (get_run p lower h o H)).
    now apply (updates_seq p _ _ _ _ (updates_set p canonical (own o lower))
                 (updates_delete p lower)).
  - now apply updates_ret.
Qed.

Lemma normalizeCase_updates (p : loc) :
  updates p (normalizeCase p) case_merged.
Proof.
  unfold normalizeCase.
  apply (updates_seq p _ _
           (merge_entry "jwt_private_key" "JWT_PRIVATE_KEY")
           (fun o => merge_entry "jwt_refresh_token_private_key"
                       "JWT_REFRESH_TOKEN_PRIVATE_KEY"
                       (merge_entry "jwt_public_key" "JWT_PUBLIC_KEY" o)));
    [apply mergeCase_updates|].
  apply (updates_seq p _ _
           (merge_entry "jwt_public_key" "JWT_PUBLIC_KEY")
           (merge_entry "jwt_refresh_token_private_key"
              "JWT_REFRESH_TOKEN_PRIVATE_KEY"));
    apply mergeCase_updates.
Qed.

Lemma spread_run (config : loc) (h : gmap loc (gmap string value)) o :
  h !! config = Some o ->
  spread config h = Ok (fresh (dom h), <[fresh (dom h) := o]> h).
Proof. intros H. unfold spread. now rewrite H. Qed.

Lemma fresh_not_allocated (h : gmap loc (gmap string value)) :
  h !! fresh (dom h) = None.
Proof. apply not_elem_of_dom, is_fresh. Qed.

(** The prefix of [processEnvVars] leaves the converted copy at a new
    location. *)
Lemma copyAndConvert_run (config : loc) (h : gmap loc (gmap string value)) o :
  h !! config = Some o ->
  copyAndConvert config h
  = Ok (fresh (dom h), <[fresh (dom h) := converted o]> h).
Proof.
  intros H. unfold copyAndConvert.
  rewrite (bind_run _ _ _ _ _ (spread_run config h o H)).
  erewrite bind_run
    by (apply convertNewlines_updates, lookup_insert_eq).
  now rewrite insert_insert_eq.
Qed.

(** The whole function: a new object holding [normalized o], nothing else
    changed. *)
Lemma processEnvVars_run (config : loc) (h : gmap loc (gmap string value)) o :
  h !! config = Some o ->
  processEnvVars config h
  = Ok (fresh (dom h), <[fresh (dom h) := normalized o]> h).
Proof.
  intros H. unfold processEnvVars.
  rewrite (bind_run _ _ _ _ _ (spread_run config h o H)).
  erewrite bind_run
    by (apply convertNewlines_updates, lookup_insert_eq).
  erewrite bind_run
    by (apply normalizeCase_updates, lookup_insert_eq).
  now rewrite !insert_insert_eq.
Qed.

Lemma processEnvVars_result (config : loc) (h : gmap loc (gmap string value)) o :
  h !! config = Some o ->
  result_object (processEnvVars config h) = Some (normalized o).
Proof.
  intros H. rewrite (processEnvVars_run config h o H).
  apply lookup_insert_eq.
Qed.

Lemma copyAndConvert_result (config : loc) (h : gmap loc (gmap string value)) o :
  h !! config = Some o ->
  result_object (copyAndConvert config h) = Some (converted o).
Proof.
  intros H. rewrite (copyAndConvert_run config h o H).
  apply lookup_insert_eq.
Qed.

(** ** The property maps after each phase *)

Lemma own_truthy_lookup (o : gmap string value) (k : string) :
  truthy (own o k) = true -> o !! k = Some (own o k).
Proof. unfold own. destruct (o !! k); [reflexivity | discriminate]. Qed.

Lemma convert_entry_lookup (varName k : string) (o : gmap string value) :
  convert_entry varName o !! k
  = if decide (varName = k) then convert_value <$> o !! k else o !! k.
Proof.
  unfold convert_entry.
  destruct (truthy (own o varName)) eqn:Ht; cbn [andb].
  - destruct (String.eqb (typeof (own o varName)) "string") eqn:Hs.
    + rewrite lookup_insert. destruct (decide (varName = k)) as [->|]; [|done].
      now rewrite (own_truthy_lookup _ _ Ht).
    + destruct (decide (varName = k)) as [->|]; [|done].
      rewrite (own_truthy_lookup _ _ Ht). cbn. f_equal. symmetry.
      apply convert_value_not_string. intros s E. rewrite E in Hs. discriminate.
  - destruct (decide (varName = k)) as [->|]; [|done].
    unfold own in Ht. destruct (o !! k) as [v|]; [|done].
    cbn in *. now rewrite convert_value_falsy.
Qed.

Lemma convert_all_lookup (vars : list string) (k : string)
    (o : gmap string value) :
  foldl (fun acc varName => convert_entry varName acc) o vars !! k
  = if decide (k ∈ vars) then convert_value <$> o !! k else o !! k.
Proof.
  revert o. induction vars as [|x vars IH]; intros o; cbn [foldl].
  - rewrite decide_False; [done | apply not_elem_of_nil].
  - rewrite IH, convert_entry_lookup.
    destruct (decide (x = k)) as [->|Hne].
    + rewrite (decide_True (P := k ∈ k :: vars)) by apply list_elem_of_here.
      destruct (decide (k ∈ vars)); [|done].
      destruct (o !! k); cbn; [|done]. now rewrite convert_value_idempotent.
    + destruct (decide (k ∈ vars)) as [Hin|Hnin].
      * rewrite decide_True; [done | now apply list_elem_of_further].
      * rewrite decide_False; [done|].
        intros [?|?]%elem_of_cons; [congruence | done].
Qed.

(** After the loop every targeted entry holds its converted value and every
    other entry is as it was. *)
Lemma converted_lookup (o : gmap string value) (k : string) :
  converted o !! k
  = if decide (k ∈ multilineVars) then convert_value <$> o !! k else o !! k.
Proof. apply convert_all_lookup. Qed.

Lemma own_converted (o : gmap string value) (k : string) :
  own (converted o) k
  = if decide (k ∈ multilineVars) then convert_value (own o k) else own o k.
Proof.
  unfold own. rewrite converted_lookup.
  destruct (decide (k ∈ multilineVars)); [|done]. now destruct (o !! k).
Qed.

Lemma merge_entry_lookup (lower canonical k : string) (o : gmap string value) :
  merge_entry lower canonical o !! k
  = if truthy (own o lower)
    then if decide (k = lower) then None
         else if decide (k = canonical) then Some (own o lower)
         else o !! k
    else o !! k.
Proof.
  unfold merge_entry. destruct (truthy (own o lower)); [|done].
  rewrite lookup_delete. destruct (decide (lower = k)) as [->|Hne].
  - now rewrite decide_True.
  - rewrite decide_False by congruence. rewrite lookup_insert.
    destruct (decide (canonical = k)) as [->|Hne'].
    + now rewrite decide_True.
    + now rewrite decide_False by congruence.
Qed.

Lemma own_merge_entry (lower canonical k : string) (o : gmap string value) :
  own (merge_entry lower canonical o) k
  = if truthy (own o lower)
    then if decide (k = lower) then VUndefined
         else if decide (k = canonical) then own o lower
         else own o k
    else own o k.
Proof.
  unfold own at 1. rewrite merge_entry_lookup.
  destruct (truthy (own o lower)); [|done].
  destruct (decide (k = lower)); [done|]. now destruct (decide (k = canonical)).
Qed.

Lemma caseVariants_cases (lower canonical : string) :
  (lower, canonical) ∈ caseVariants ->
  (lower = "jwt_private_key" /\ canonical = "JWT_PRIVATE_KEY")
  \/ (lower = "jwt_public_key" /\ canonical = "JWT_PUBLIC_KEY")
  \/ (lower = "jwt_refresh_token_private_key"
      /\ canonical = "JWT_REFRESH_TOKEN_PRIVATE_KEY").
Proof.
  unfold caseVariants. rewrite !elem_of_cons, elem_of_nil.
  intros [H|[H|[H|[]]]]; inversion H; auto.
Qed.

Ltac case_merged_lookup :=
  unfold case_merged;
  rewrite ?merge_entry_lookup, ?own_merge_entry;
  repeat match goal with
    | |- context [decide (?a = ?b)] =>
        first [ rewrite (decide_True (P := a = b)) by reflexivity
              | rewrite (decide_False (P := a = b)) by discriminate ]
    end.

(** The three blocks act on disjoint pairs of names, so each pair sees only
    its own block. *)
Lemma case_merged_lower (lower canonical : string) (o : gmap string value) :
  (lower, canonical) ∈ caseVariants ->
  case_merged o !! lower = if truthy (own o lower) then None else o !! lower.
Proof.
  intros [[-> ->]|[[-> ->]|[-> ->]]]%caseVariants_cases; case_merged_lookup;
    repeat match goal with
           | |- context [truthy (own o ?k)] => destruct (truthy (own o k))
           end;
    reflexivity.
Qed.

Lemma case_merged_canonical (lower canonical : string) (o : gmap string value) :
  (lower, canonical) ∈ caseVariants ->
  case_merged o !! canonical
  = if truthy (own o lower) then Some (own o lower) else o !! canonical.
Proof.
  intros [[-> ->]|[[-> ->]|[-> ->]]]%caseVariants_cases; case_merged_lookup;
    repeat match goal with
           | |- context [truthy (own o ?k)] => destruct (truthy (own o k))
           end;
    reflexivity.
Qed.

Lemma not_targeted (k : string) :
  k ∉ multilineVars ->
  k <> "JWT_PRIVATE_KEY" /\ k <> "JWT_PUBLIC_KEY"
  /\ k <> "JWT_REFRESH_TOKEN_PRIVATE_KEY" /\ k <> "jwt_private_key"
  /\ k <> "jwt_public_key" /\ k <> "jwt_refresh_token_private_key".
Proof.
  unfold multilineVars. rewrite !not_elem_of_cons. tauto.
Qed.

Lemma case_merged_other (o : gmap string value) (k : string) :
  k ∉ multilineVars -> case_merged o !! k = o !! k.
Proof.
  intros (? & ? & ? & ? & ? & ?)%not_targeted.
  unfold case_merged. rewrite !merge_entry_lookup.
  rewrite !decide_False by assumption.
  repeat match goal with
         | |- context [if ?b then _ else _] => destruct b
         end; reflexivity.
Qed.

Lemma normalized_other (o : gmap string value) (k : string) :
  k ∉ multilineVars -> normalized o !! k = o !! k.
Proof.
  intros H. unfold normalized.
  rewrite (case_merged_other _ _ H), converted_lookup.
  now rewrite decide_False.
Qed.

Lemma caseVariants_targeted (lower canonical : string) :
  (lower, canonical) ∈ caseVariants ->
  lower ∈ multilineVars /\ canonical ∈ multilineVars.
Proof.
  intros [[-> ->]|[[-> ->]|[-> ->]]]%caseVariants_cases;
    split; unfold multilineVars; set_solver.
Qed.

(** Every targeted name is the lowercase or the canonical name of a pair. *)
Lemma targeted_cases (k : string) :
  k ∈ multilineVars ->
  exists lower canonical,
    (lower, canonical) ∈ caseVariants /\ (k = lower \/ k = canonical).
Proof.
  unfold multilineVars. rewrite !elem_of_cons, elem_of_nil.
  intros [->|[->|[->|[->|[->|[->|[]]]]]]].
  - exists "jwt_private_key", "JWT_PRIVATE_KEY". split; [set_solver | auto].
  - exists "jwt_public_key", "JWT_PUBLIC_KEY". split; [set_solver | auto].
  - exists "jwt_refresh_token_private_key", "JWT_REFRESH_TOKEN_PRIVATE_KEY".
    split; [set_solver | auto].
  - exists "jwt_private_key", "JWT_PRIVATE_KEY". split; [set_solver | auto].
  - exists "jwt_public_key", "JWT_PUBLIC_KEY". split; [set_solver | auto].
  - exists "jwt_refresh_token_private_key", "JWT_REFRESH_TOKEN_PRIVATE_KEY".
    split; [set_solver | auto].
Qed.

(** A pair whose lowercase entry is not truthy is left alone by the blocks. *)
Lemma case_merged_skipped (lower canonical k : string) (o : gmap string value) :
  (lower, canonical) ∈ caseVariants ->
  truthy (own o lower) = false ->
  k = lower \/ k = canonical ->
  case_merged o !! k = o !! k.
Proof.
  intros Hin Hf [->| ->].
  - now rewrite (case_merged_lower _ _ _ Hin), Hf.
  - now rewrite (case_merged_canonical _ _ _ Hin), Hf.
Qed.

Lemma case_merged_id (o : gmap string value) :
  (forall lower canonical,
      (lower, canonical) ∈ caseVariants -> truthy (own o lower) = false) ->
  case_merged o = o.
Proof.
  intros H. unfold case_merged, merge_entry.
  rewrite (H "jwt_private_key" "JWT_PRIVATE_KEY") by set_solver.
  rewrite (H "jwt_public_key" "JWT_PUBLIC_KEY") by set_solver.
  now rewrite (H "jwt_refresh_token_private_key"
                 "JWT_REFRESH_TOKEN_PRIVATE_KEY") by set_solver.
Qed.

Lemma converted_id (o : gmap string value) :
  (forall k v, k ∈ multilineVars -> o !! k = Some v -> convert_value v = v) ->
  converted o = o.
Proof.
  intros H. apply map_eq. intros k. rewrite converted_lookup.
  destruct (decide (k ∈ multilineVars)) as [Hin|]; [|done].
  destruct (o !! k) as [v|] eqn:Hk; [|done].
  cbn. now rewrite (H k v Hin Hk).
Qed.

(** In the result no lowercase entry is truthy ... *)
Lemma normalized_lower_falsy (o : gmap string value) (lower canonical : string) :
  (lower, canonical) ∈ caseVariants ->
  truthy (own (normalized o) lower) = false.
Proof.
  intros Hin. unfold normalized, own at 1.
  rewrite (case_merged_lower _ _ _ Hin).
  destruct (truthy (own (converted o) lower)) eqn:Ht; [reflexivity|].
  exact Ht.
Qed.

(** ... and every targeted entry holds a converted value. *)
Lemma normalized_values_converted (o : gmap string value) (k : string) v :
  k ∈ multilineVars -> normalized o !! k = Some v -> convert_value v = v.
Proof.
  intros Hk. destruct (targeted_cases k Hk) as (lower & canonical & Hin & Hcase).
  destruct (caseVariants_targeted _ _ Hin) as [Hl Hc].
  unfold normalized. destruct Hcase as [-> | ->].
  - rewrite (case_merged_lower _ _ _ Hin).
    destruct (truthy (own (converted o) lower)); [discriminate|].
    rewrite converted_lookup, decide_True by assumption.
    destruct (o !! lower); cbn; [|discriminate].
    intros [= <-]. apply convert_value_idempotent.
  - rewrite (case_merged_canonical _ _ _ Hin).
    destruct (truthy (own (converted o) lower)).
    + rewrite own_converted, decide_True by assumption.
      intros [= <-]. apply convert_value_idempotent.
    + rewrite converted_lookup, decide_True by assumption.
      destruct (o !! canonical); cbn; [|discriminate].
      intros [= <-]. apply convert_value_idempotent.
Qed.

Lemma normalized_idempotent (o : gmap string value) :
  normalized (normalized o) = normalized o.
Proof.
  unfold normalized at 1.
  rewrite (converted_id (normalized o))
    by (intros k v; apply normalized_values_converted).
  apply case_merged_id. intros lower canonical.
  apply normalized_lower_falsy.
Qed.

(** ** getEnvPath *)

Lemma getEnvPath_run (resolve : string -> string)
    (process_env : gmap string string) (dest : string) :
  getEnvPath resolve process_env dest
  = Ok (resolve (dest +:+ "/." +:+
                 or_default (process_env !! "NODE_ENV") "development"
                 +:+ ".env")).
Proof.
  unfold getEnvPath, path_resolve, or_default, env_value, interpolate.
  destruct (process_env !! "NODE_ENV") as [[|c s]|]; reflexivity.
Qed.

(** The scan treats the text on either side of a match on its own: the
    replacement commutes with splitting the string at an occurrence of the
    pattern. *)
Lemma replace_newlines_split (a b : string) :
  replace_newlines (a +:+ String backslash (String letter_n b))
  = replace_newlines a +:+ String newline (replace_newlines b).
Proof.
  assert (Hlen : forall n a, (String.length a <= n)%nat ->
            replace_newlines (a +:+ String backslash (String letter_n b))
            = replace_newlines a +:+ String newline (replace_newlines b)).
  { clear a. induction n as [|n IH]; intros a Hn.
    - destruct a; simpl in Hn; [reflexivity | lia].
    - destruct a as [|c rest]; [reflexivity|]. simpl in Hn.
      change (String c rest +:+ String backslash (String letter_n b))
        with (String c (rest +:+ String backslash (String letter_n b))).
      destruct (matches_here c rest) eqn:Hm.
      + apply matches_here_inv in Hm as [-> [rest' ->]]. simpl in Hn.
        change (String letter_n rest' +:+ String backslash (String letter_n b))
          with (String letter_n
                  (rest' +:+ String backslash (String letter_n b))).
        rewrite !replace_newlines_match.
        change (String newline (replace_newlines rest') +:+ ?x)
          with (String newline (replace_newlines rest' +:+ x)).
        f_equal. apply IH. lia.
      + rewrite (replace_newlines_skip c rest Hm).
        rewrite (replace_newlines_skip c).
        * change (String c (replace_newlines rest) +:+ ?x)
            with (String c (replace_newlines rest +:+ x)).
          f_equal. apply IH. lia.
        * destruct rest as [|c' rest']; [|exact Hm].
          unfold matches_here. cbn.
          now destruct (Ascii.eqb c backslash). }
  apply (Hlen (String.length a)). lia.
Qed.

(** ** The claims *)

(** C1: for every configuration and each of the six targeted names whose
    value is a string, the copy holds, once the loop is over and before the
    case blocks run, that string with every backslash-n turned into a line
    feed; the entry is still there at the end when no lowercase entry is
    merged over it.  A configuration with JWT_PRIVATE_KEY bound to
    a-backslash-n-b comes out with a, line feed, b. *)
Theorem processEnvVars_converts_newlines :
  (forall (h : gmap loc (gmap string value)) config o k s,
      h !! config = Some o ->
      k ∈ multilineVars ->
      o !! k = Some (VString s) ->
      (exists mid,
          result_object (copyAndConvert config h) = Some mid
          /\ mid !! k = Some (VString (replace_newlines s)))
      /\ (forall lower,
             (lower, k) ∈ caseVariants ->
             truthy (own o lower) = false ->
             exists out,
               result_object (processEnvVars config h) = Some out
               /\ out !! k = Some (VString (replace_newlines s))))
  /\ replace_newlines "a\nb" = String "a" (String newline "b")
  /\ result_object (processEnvVars config_loc (heap_of private_key_escaped))
     = Some {[ "JWT_PRIVATE_KEY" := VString (String "a" (String newline "b")) ]}.
Proof.
  split; [|split; [reflexivity | vm_compute; reflexivity]].
  intros h config o k s Hcfg Hk Hs. split.
  - exists (converted o). split; [now apply copyAndConvert_result|].
    now rewrite converted_lookup, decide_True, Hs.
  - intros lower Hpair Hfalsy.
    exists (normalized o). split; [now apply processEnvVars_result|].
    unfold normalized.
    rewrite (case_merged_skipped lower k k); auto.
    + now rewrite converted_lookup, decide_True, Hs.
    + destruct (caseVariants_targeted _ _ Hpair) as [Hl _].
      rewrite own_converted, decide_True by assumption.
      now rewrite truthy_convert_value.
Qed.

Lemma processEnvVars_converts_newlines_witness :
  heap_of canonical_and_empty_lowercase !! config_loc
  = Some canonical_and_empty_lowercase
  /\ "JWT_PUBLIC_KEY" ∈ multilineVars
  /\ canonical_and_empty_lowercase !! "JWT_PUBLIC_KEY" = Some (VString "x\ny")
  /\ ("jwt_public_key", "JWT_PUBLIC_KEY") ∈ caseVariants
  /\ truthy (own canonical_and_empty_lowercase "jwt_public_key") = false
  /\ (exists mid,
        result_object
          (copyAndConvert config_loc (heap_of canonical_and_empty_lowercase))
        = Some mid
        /\ mid !! "JWT_PUBLIC_KEY" = Some (VString (replace_newlines "x\ny")))
  /\ (exists out,
        result_object
          (processEnvVars config_loc (heap_of canonical_and_empty_lowercase))
        = Some out
        /\ out !! "JWT_PUBLIC_KEY" = Some (VString (replace_newlines "x\ny"))).
Proof.
  assert (H1 : heap_of canonical_and_empty_lowercase !! config_loc
               = Some canonical_and_empty_lowercase) by reflexivity.
  assert (H2 : "JWT_PUBLIC_KEY" ∈ multilineVars)
    by (unfold multilineVars; repeat constructor).
  assert (H3 : canonical_and_empty_lowercase !! "JWT_PUBLIC_KEY"
               = Some (VString "x\ny")) by reflexivity.
  assert (H4 : ("jwt_public_key", "JWT_PUBLIC_KEY") ∈ caseVariants)
    by (unfold caseVariants; repeat constructor).
  assert (H5 : truthy (own canonical_and_empty_lowercase "jwt_public_key")
               = false) by reflexivity.
  pose proof (proj1 processEnvVars_converts_newlines
                (heap_of canonical_and_empty_lowercase) config_loc
                canonical_and_empty_lowercase "JWT_PUBLIC_KEY" "x\ny"
                H1 H2 H3) as [Hmid Hout].
  split; [exact H1|]. split; [exact H2|]. split; [exact H3|].
  split; [exact H4|]. split; [exact H5|]. split; [exact Hmid|].
  exact (Hout "jwt_public_key" H4 H5).
Defined.

(** C2, counterexample: a configuration whose only entry is jwt_public_key
    bound to the empty string has the lowercase name present, yet the result
    keeps it and has no JWT_PUBLIC_KEY. *)
Lemma lowercase_empty_string_is_kept :
  public_key_lowercase_empty !! "jwt_public_key" = Some (VString EmptyString)
  /\ result_object
       (processEnvVars config_loc (heap_of public_key_lowercase_empty))
     = Some public_key_lowercase_empty
  /\ public_key_lowercase_empty !! "JWT_PUBLIC_KEY" = None
  /\ ~ (forall (h : gmap loc (gmap string value)) config o lower canonical v,
          h !! config = Some o ->
          (lower, canonical) ∈ caseVariants ->
          o !! lower = Some v ->
          exists out,
            result_object (processEnvVars config h) = Some out
            /\ out !! canonical = Some (convert_value v)
            /\ out !! lower = None).
Proof.
  assert (Hrun : result_object
            (processEnvVars config_loc (heap_of public_key_lowercase_empty))
          = Some public_key_lowercase_empty) by (vm_compute; reflexivity).
  repeat split; try reflexivity; try exact Hrun.
  intros Hclaim.
  destruct (Hclaim (heap_of public_key_lowercase_empty) config_loc
              public_key_lowercase_empty "jwt_public_key" "JWT_PUBLIC_KEY"
              (VString EmptyString))
    as (out & Hout & _ & Hgone);
    [reflexivity | unfold caseVariants; repeat constructor | reflexivity |].
  rewrite Hrun in Hout. injection Hout as <-. discriminate Hgone.
Qed.

(** C2, amended: for every configuration in which a lowercase variant is
    present with a truthy value, the result binds the canonical name to that
    value, newline-converted, and has no entry under the lowercase name, also
    when the canonical name was bound in the input.  A lowercase variant bound
    to a falsy value (empty string, undefined, null, false, 0, NaN) is left in
    place and nothing is copied: the canonical name keeps its own value,
    newline-converted, or stays absent.  A configuration holding only
    jwt_public_key bound to x-backslash-n-y comes out as JWT_PUBLIC_KEY bound
    to x, line feed, y. *)
Theorem processEnvVars_merges_truthy_lowercase :
  (forall (h : gmap loc (gmap string value)) config o lower canonical v,
      h !! config = Some o ->
      (lower, canonical) ∈ caseVariants ->
      o !! lower = Some v ->
      truthy v = true ->
      exists out,
        result_object (processEnvVars config h) = Some out
        /\ out !! canonical = Some (convert_value v)
        /\ out !! lower = None)
  /\ (forall (h : gmap loc (gmap string value)) config o lower canonical v,
         h !! config = Some o ->
         (lower, canonical) ∈ caseVariants ->
         o !! lower = Some v ->
         truthy v = false ->
         exists out,
           result_object (processEnvVars config h) = Some out
           /\ out !! lower = Some v
           /\ out !! canonical = convert_value <$> o !! canonical)
  /\ result_object (processEnvVars config_loc (heap_of public_key_lowercase))
     = Some {[ "JWT_PUBLIC_KEY" := VString (String "x" (String newline "y")) ]}
  /\ result_object (processEnvVars config_loc (heap_of both_cases))
     = Some {[ "JWT_PUBLIC_KEY" := VString (String "x" (String newline "y")) ]}.
Proof.
  split; [|split; [|split; vm_compute; reflexivity]].
  - intros h config o lower canonical v Hcfg Hpair Hv Ht.
    destruct (caseVariants_targeted _ _ Hpair) as [Hl _].
    assert (Hown : own (converted o) lower = convert_value v).
    { rewrite own_converted, decide_True by assumption.
      unfold own. now rewrite Hv. }
    exists (normalized o). split; [now apply processEnvVars_result|].
    unfold normalized.
    rewrite (case_merged_canonical _ _ _ Hpair), (case_merged_lower _ _ _ Hpair).
    now rewrite Hown, truthy_convert_value, Ht.
  - intros h config o lower canonical v Hcfg Hpair Hv Hf.
    destruct (caseVariants_targeted _ _ Hpair) as [Hl Hc].
    assert (Hskip : truthy (own (converted o) lower) = false).
    { rewrite own_converted, decide_True by assumption.
      rewrite truthy_convert_value. unfold own. now rewrite Hv. }
    exists (normalized o). split; [now apply processEnvVars_result|].
    unfold normalized.
    rewrite (case_merged_skipped lower canonical lower) by auto.
    rewrite (case_merged_skipped lower canonical canonical) by auto.
    rewrite (converted_lookup o lower), (decide_True (P := lower ∈ multilineVars))
      by assumption.
    rewrite (converted_lookup o canonical),
      (decide_True (P := canonical ∈ multilineVars)) by assumption.
    rewrite Hv. cbn [fmap option_fmap option_map].
    rewrite (convert_value_falsy v Hf). split; reflexivity.
Qed.

Lemma processEnvVars_merges_truthy_lowercase_witness :
  (heap_of both_cases !! config_loc = Some both_cases
   /\ ("jwt_public_key", "JWT_PUBLIC_KEY") ∈ caseVariants
   /\ both_cases !! "jwt_public_key" = Some (VString "x\ny")
   /\ truthy (VString "x\ny") = true
   /\ exists out,
       result_object (processEnvVars config_loc (heap_of both_cases)) = Some out
       /\ out !! "JWT_PUBLIC_KEY" = Some (convert_value (VString "x\ny"))
       /\ out !! "jwt_public_key" = None)
  /\ (heap_of canonical_and_empty_lowercase !! config_loc
      = Some canonical_and_empty_lowercase
      /\ canonical_and_empty_lowercase !! "jwt_public_key"
         = Some (VString EmptyString)
      /\ truthy (VString EmptyString) = false
      /\ exists out,
          result_object
            (processEnvVars config_loc (heap_of canonical_and_empty_lowercase))
          = Some out
          /\ out !! "jwt_public_key" = Some (VString EmptyString)
          /\ out !! "JWT_PUBLIC_KEY"
             = convert_value <$> canonical_and_empty_lowercase !! "JWT_PUBLIC_KEY").
Proof.
  assert (H1 : heap_of both_cases !! config_loc = Some both_cases)
    by reflexivity.
  assert (H2 : ("jwt_public_key", "JWT_PUBLIC_KEY") ∈ caseVariants)
    by (unfold caseVariants; repeat constructor).
  assert (H3 : both_cases !! "jwt_public_key" = Some (VString "x\ny"))
    by reflexivity.
  assert (H4 : truthy (VString "x\ny") = true) by reflexivity.
  assert (H5 : heap_of canonical_and_empty_lowercase !! config_loc
               = Some canonical_and_empty_lowercase) by reflexivity.
  assert (H6 : canonical_and_empty_lowercase !! "jwt_public_key"
               = Some (VString EmptyString)) by reflexivity.
  assert (H7 : truthy (VString EmptyString) = false) by reflexivity.
  split.
  - split; [exact H1|]. split; [exact H2|]. split; [exact H3|].
    split; [exact H4|].
    exact (proj1 processEnvVars_merges_truthy_lowercase
             (heap_of both_cases) config_loc both_cases
             "jwt_public_key" "JWT_PUBLIC_KEY" (VString "x\ny") H1 H2 H3 H4).
  - split; [exact H5|]. split; [exact H6|]. split; [exact H7|].
    exact (proj1 (proj2 processEnvVars_merges_truthy_lowercase)
             (heap_of canonical_and_empty_lowercase) config_loc
             canonical_and_empty_lowercase
             "jwt_public_key" "JWT_PUBLIC_KEY" (VString EmptyString) H5 H2 H6 H7).
Defined.

(** C3: for every base directory and every mode among absent, production
    and test, the resolver returns
    resolve(d + "/." + (m or "development") + ".env"); with no mode the file
    name is .development.env. *)
Theorem getEnvPath_named_modes (resolve : string -> string)
    (process_env : gmap string string) (d : string) (m : option string) :
  process_env !! "NODE_ENV" = m ->
  m = None \/ m = Some "production" \/ m = Some "test" ->
  getEnvPath resolve process_env d
  = Ok (resolve (((d +:+ "/.") +:+ or_default m "development") +:+ ".env"))
  /\ (m = None ->
      getEnvPath resolve process_env d
      = Ok (resolve (d +:+ "/" +:+ ".development.env"))).
Proof.
  intros Henv _. rewrite getEnvPath_run, Henv. split.
  - now rewrite !append_assoc.
  - now intros ->.
Qed.

Lemma getEnvPath_named_modes_witness :
  ({[ "NODE_ENV" := "production" ]} : gmap string string) !! "NODE_ENV"
  = Some "production"
  /\ (Some "production" = None \/ Some "production" = Some "production"
      \/ Some "production" = Some "test")
  /\ getEnvPath (fun s => s) {[ "NODE_ENV" := "production" ]} "/srv/envs"
     = Ok "/srv/envs/.production.env".
Proof.
  assert (H1 : ({[ "NODE_ENV" := "production" ]} : gmap string string)
               !! "NODE_ENV" = Some "production") by reflexivity.
  assert (H2 : Some "production" = None \/ Some "production" = Some "production"
               \/ Some "production" = Some "test") by (right; left; reflexivity).
  split; [exact H1|]. split; [exact H2|].
  exact (proj1 (getEnvPath_named_modes (fun s => s)
                  {[ "NODE_ENV" := "production" ]} "/srv/envs"
                  (Some "production") H1 H2)).
Defined.

(** C4: the normalizer is idempotent: run on the object it returned, it
    returns an object with the same entries. *)
Theorem processEnvVars_idempotent
    (h : gmap loc (gmap string value)) (config : loc) (o : gmap string value) :
  h !! config = Some o ->
  exists p1 h1 p2 h2 out,
    processEnvVars config h = Ok (p1, h1)
    /\ processEnvVars p1 h1 = Ok (p2, h2)
    /\ h1 !! p1 = Some out
    /\ h2 !! p2 = Some out.
Proof.
  intros Hcfg.
  set (p1 := fresh (dom h)).
  set (h1 := <[p1 := normalized o]> h).
  assert (Hp1 : h1 !! p1 = Some (normalized o)) by apply lookup_insert_eq.
  exists p1, h1, (fresh (dom h1)),
    (<[fresh (dom h1) := normalized (normalized o)]> h1), (normalized o).
  split; [now apply processEnvVars_run|].
  split; [now apply processEnvVars_run|].
  split; [exact Hp1|].
  rewrite lookup_insert_eq. f_equal. apply normalized_idempotent.
Qed.

Lemma processEnvVars_idempotent_witness :
  heap_of both_cases !! config_loc = Some both_cases
  /\ exists p1 h1 p2 h2 out,
      processEnvVars config_loc (heap_of both_cases) = Ok (p1, h1)
      /\ processEnvVars p1 h1 = Ok (p2, h2)
      /\ h1 !! p1 = Some out
      /\ h2 !! p2 = Some out.
Proof.
  assert (H1 : heap_of both_cases !! config_loc = Some both_cases)
    by reflexivity.
  split; [exact H1|].
  exact (processEnvVars_idempotent (heap_of both_cases) config_loc
           both_cases H1).
Defined.

(** C5: the normalizer does not mutate its argument: after the call the
    input object holds the entries it held before, every other object of the
    heap is untouched as well, and the result is a new object. *)
Theorem processEnvVars_preserves_input
    (h : gmap loc (gmap string value)) (config : loc) (o : gmap string value) :
  h !! config = Some o ->
  exists processed h',
    processEnvVars config h = Ok (processed, h')
    /\ h' !! config = Some o
    /\ processed <> config
    /\ h !! processed = None
    /\ (forall l, l <> processed -> h' !! l = h !! l).
Proof.
  intros Hcfg.
  pose proof (fresh_not_allocated h) as Hfresh.
  assert (Hne : fresh (dom h) <> config) by (intros E; congruence).
  exists (fresh (dom h)), (<[fresh (dom h) := normalized o]> h).
  split; [now apply processEnvVars_run|].
  split; [now rewrite lookup_insert_ne|].
  split; [exact Hne|]. split; [exact Hfresh|].
  intros l Hl. now rewrite lookup_insert_ne.
Qed.

Lemma processEnvVars_preserves_input_witness :
  heap_of both_cases !! config_loc = Some both_cases
  /\ exists processed h',
      processEnvVars config_loc (heap_of both_cases) = Ok (processed, h')
      /\ h' !! config_loc = Some both_cases
      /\ processed <> config_loc
      /\ heap_of both_cases !! processed = None
      /\ (forall l, l <> processed -> h' !! l = heap_of both_cases !! l).
Proof.
  assert (H1 : heap_of both_cases !! config_loc = Some both_cases)
    by reflexivity.
  split; [exact H1|].
  exact (processEnvVars_preserves_input (heap_of both_cases) config_loc
           both_cases H1).
Defined.

(** C6: on a configuration that has none of the six targeted names the
    normalizer is the identity: the result has exactly the entries of the
    input. *)
Theorem processEnvVars_identity_without_jwt_keys
    (h : gmap loc (gmap string value)) (config : loc) (o : gmap string value) :
  h !! config = Some o ->
  (forall k, k ∈ multilineVars -> o !! k = None) ->
  result_object (processEnvVars config h) = Some o.
Proof.
  intros Hcfg Hnone. rewrite (processEnvVars_result config h o Hcfg).
  f_equal. unfold normalized.
  rewrite converted_id.
  - apply case_merged_id. intros lower canonical Hpair.
    destruct (caseVariants_targeted _ _ Hpair) as [Hl _].
    unfold own. now rewrite (Hnone lower Hl).
  - intros k v Hk Hv. rewrite (Hnone k Hk) in Hv. discriminate.
Qed.

Lemma no_jwt_keys_untargeted (k : string) :
  k ∈ multilineVars -> no_jwt_keys !! k = None.
Proof.
  unfold multilineVars. rewrite !elem_of_cons, elem_of_nil.
  intros [->|[->|[->|[->|[->|[->|[]]]]]]]; reflexivity.
Defined.

Lemma processEnvVars_identity_without_jwt_keys_witness :
  heap_of no_jwt_keys !! config_loc = Some no_jwt_keys
  /\ (forall k, k ∈ multilineVars -> no_jwt_keys !! k = None)
  /\ result_object (processEnvVars config_loc (heap_of no_jwt_keys))
     = Some no_jwt_keys.
Proof.
  assert (H1 : heap_of no_jwt_keys !! config_loc = Some no_jwt_keys)
    by reflexivity.
  split; [exact H1|]. split; [exact no_jwt_keys_untargeted|].
  exact (processEnvVars_identity_without_jwt_keys (heap_of no_jwt_keys)
           config_loc no_jwt_keys H1 no_jwt_keys_untargeted).
Defined.

(** C7: in the conversion loop a targeted entry whose value is not a string
    is left as it is, and a targeted name that is absent stays absent; the
    same holds of the final result whenever the lowercase entry of that name's
    pair is not truthy, and a truthy non-string value found under a lowercase
    name reaches the canonical name unmodified. *)
Theorem convertNewlines_skips_non_strings
    (h : gmap loc (gmap string value)) (config : loc) (o : gmap string value)
    (k : string) :
  h !! config = Some o ->
  k ∈ multilineVars ->
  (o !! k = None \/ exists v, o !! k = Some v /\ typeof v <> "string") ->
  exists mid out,
    result_object (copyAndConvert config h) = Some mid
    /\ result_object (processEnvVars config h) = Some out
    /\ mid !! k = o !! k
    /\ (forall lower canonical,
           (lower, canonical) ∈ caseVariants ->
           k = lower \/ k = canonical ->
           truthy (own o lower) = false ->
           out !! k = o !! k)
    /\ (forall canonical,
           (k, canonical) ∈ caseVariants ->
           truthy (own o k) = true ->
           out !! canonical = o !! k).
Proof.
  intros Hcfg Hk Hval.
  assert (Hmid : converted o !! k = o !! k).
  { rewrite converted_lookup, decide_True by assumption.
    destruct Hval as [-> | (v & -> & Hty)]; [reflexivity|].
    cbn. f_equal. apply convert_value_not_string.
    intros s ->. now apply Hty. }
  exists (converted o), (normalized o).
  split; [now apply copyAndConvert_result|].
  split; [now apply processEnvVars_result|].
  split; [exact Hmid|]. split.
  - intros lower canonical Hpair Hcase Hfalsy. unfold normalized.
    rewrite (case_merged_skipped lower canonical k); auto.
    destruct (caseVariants_targeted _ _ Hpair) as [Hl _].
    rewrite own_converted, decide_True by assumption.
    now rewrite truthy_convert_value.
  - intros canonical Hpair Ht. unfold normalized.
    assert (Hown : own (converted o) k = own o k)
      by (unfold own; now rewrite Hmid).
    rewrite (case_merged_canonical _ _ _ Hpair), Hown, Ht.
    symmetry. now apply own_truthy_lookup.
Qed.

Lemma convertNewlines_skips_non_strings_witness :
  heap_of numeric_key !! config_loc = Some numeric_key
  /\ "JWT_PUBLIC_KEY" ∈ multilineVars
  /\ (numeric_key !! "JWT_PUBLIC_KEY" = None
      \/ exists v, numeric_key !! "JWT_PUBLIC_KEY" = Some v
                   /\ typeof v <> "string")
  /\ ("jwt_public_key", "JWT_PUBLIC_KEY") ∈ caseVariants
  /\ truthy (own numeric_key "jwt_public_key") = false
  /\ exists mid out,
      result_object (copyAndConvert config_loc (heap_of numeric_key)) = Some mid
      /\ result_object (processEnvVars config_loc (heap_of numeric_key))
         = Some out
      /\ mid !! "JWT_PUBLIC_KEY" = Some (VNumber 0x4045000000000000)
      /\ out !! "JWT_PUBLIC_KEY" = Some (VNumber 0x4045000000000000).
Proof.
  assert (H1 : heap_of numeric_key !! config_loc = Some numeric_key)
    by reflexivity.
  assert (H2 : "JWT_PUBLIC_KEY" ∈ multilineVars)
    by (unfold multilineVars; repeat constructor).
  assert (H3 : numeric_key !! "JWT_PUBLIC_KEY" = None
               \/ exists v, numeric_key !! "JWT_PUBLIC_KEY" = Some v
                            /\ typeof v <> "string").
  { right. exists (VNumber 0x4045000000000000).
    split; [reflexivity | discriminate]. }
  assert (H4 : ("jwt_public_key", "JWT_PUBLIC_KEY") ∈ caseVariants)
    by (unfold caseVariants; repeat constructor).
  assert (H5 : truthy (own numeric_key "jwt_public_key") = false)
    by reflexivity.
  split; [exact H1|]. split; [exact H2|]. split; [exact H3|].
  split; [exact H4|]. split; [exact H5|].
  destruct (convertNewlines_skips_non_strings (heap_of numeric_key)
              config_loc numeric_key "JWT_PUBLIC_KEY" H1 H2 H3)
    as (mid & out & Hmid & Hout & Hk & Hkeep & _).
  exists mid, out. split; [exact Hmid|]. split; [exact Hout|].
  split; [exact Hk|].
  exact (Hkeep "jwt_public_key" "JWT_PUBLIC_KEY" H4 (or_intror eq_refl) H5).
Defined.

(** C8: every entry whose name is not one of the six targeted names is in
    the result exactly as it was in the input, and a name outside the six that
    the input lacks is not added. *)
Theorem processEnvVars_passes_other_keys
    (h : gmap loc (gmap string value)) (config : loc) (o : gmap string value)
    (k : string) :
  h !! config = Some o ->
  k ∉ multilineVars ->
  exists out,
    result_object (processEnvVars config h) = Some out
    /\ out !! k = o !! k.
Proof.
  intros Hcfg Hk. exists (normalized o).
  split; [now apply processEnvVars_result | now apply normalized_other].
Qed.

Lemma processEnvVars_passes_other_keys_witness :
  heap_of no_jwt_keys !! config_loc = Some no_jwt_keys
  /\ ("DB_HOST" ∉ multilineVars)
  /\ exists out,
      result_object (processEnvVars config_loc (heap_of no_jwt_keys)) = Some out
      /\ out !! "DB_HOST" = Some (VString "a\nb").
Proof.
  assert (H1 : heap_of no_jwt_keys !! config_loc = Some no_jwt_keys)
    by reflexivity.
  assert (H2 : "DB_HOST" ∉ multilineVars).
  { unfold multilineVars. rewrite !not_elem_of_cons.
    repeat split; try discriminate. apply not_elem_of_nil. }
  split; [exact H1|]. split; [exact H2|].
  exact (processEnvVars_passes_other_keys (heap_of no_jwt_keys) config_loc
           no_jwt_keys "DB_HOST" H1 H2).
Defined.

(** C9: neither operation throws: the resolver returns a path for every
    environment and directory, and the normalizer returns an object for every
    heap and every configuration object in it. *)
Theorem helpers_never_throw :
  (forall (resolve : string -> string) (process_env : gmap string string)
          (dest : string),
      exists path, getEnvPath resolve process_env dest = Ok path)
  /\ (forall (h : gmap loc (gmap string value)) (config : loc),
         is_Some (h !! config) ->
         exists processed h' out,
           processEnvVars config h = Ok (processed, h')
           /\ h' !! processed = Some out).
Proof.
  split.
  - intros resolve process_env dest. rewrite getEnvPath_run. now eexists.
  - intros h config [o Hcfg].
    rewrite (processEnvVars_run config h o Hcfg).
    do 3 eexists. split; [reflexivity | apply lookup_insert_eq].
Qed.

Lemma helpers_never_throw_witness :
  is_Some (heap_of numeric_key !! config_loc)
  /\ exists processed h' out,
      processEnvVars config_loc (heap_of numeric_key) = Ok (processed, h')
      /\ h' !! processed = Some out.
Proof.
  assert (H1 : is_Some (heap_of numeric_key !! config_loc))
    by (exists numeric_key; reflexivity).
  split; [exact H1|].
  exact (proj2 helpers_never_throw (heap_of numeric_key) config_loc H1).
Defined.

(** C10: a mode signal that is present but empty is treated as an absent
    one: the path ends in .development.env, as it does once the variable is
    removed from the environment. *)
Theorem getEnvPath_empty_mode (resolve : string -> string)
    (process_env : gmap string string) (dest : string) :
  process_env !! "NODE_ENV" = Some EmptyString ->
  getEnvPath resolve process_env dest
  = Ok (resolve (dest +:+ "/" +:+ ".development.env"))
  /\ getEnvPath resolve process_env dest
     = getEnvPath resolve (delete "NODE_ENV" process_env) dest.
Proof.
  intros Henv. rewrite !getEnvPath_run, Henv, lookup_delete_eq.
  split; reflexivity.
Qed.

Lemma getEnvPath_empty_mode_witness :
  ({[ "NODE_ENV" := EmptyString ]} : gmap string string) !! "NODE_ENV"
  = Some EmptyString
  /\ getEnvPath (fun s => s) {[ "NODE_ENV" := EmptyString ]} "/srv/envs"
     = Ok "/srv/envs/.development.env".
Proof.
  assert (H1 : ({[ "NODE_ENV" := EmptyString ]} : gmap string string)
               !! "NODE_ENV" = Some EmptyString) by reflexivity.
  split; [exact H1|].
  exact (proj1 (getEnvPath_empty_mode (fun s => s)
                  {[ "NODE_ENV" := EmptyString ]} "/srv/envs" H1)).
Defined.

(** * Further properties of the helpers *)

(** ** The scan of [replace] *)

(** Induction along the scan: either the pattern matches at the front and two
    characters are consumed, or one character is copied. *)
Lemma replace_scan_ind (P : string -> Prop) :
  P EmptyString ->
  (forall rest, P rest -> P (String backslash (String letter_n rest))) ->
  (forall c rest, matches_here c rest = false -> P rest -> P (String c rest)) ->
  forall s, P s.
Proof.
  intros Hnil Hmatch Hskip s.
  assert (Hlen : forall n s, (String.length s <= n)%nat -> P s).
  { clear s. induction n as [|n IH]; intros s Hn.
    - destruct s; simpl in Hn; [exact Hnil | lia].
    - destruct s as [|c rest]; [exact Hnil|]. simpl in Hn.
      destruct (matches_here c rest) eqn:Hm.
      + apply matches_here_inv in Hm as [-> [rest' ->]]. simpl in Hn.
        apply Hmatch, IH. lia.
      + apply Hskip; [exact Hm | apply IH; lia]. }
  apply (Hlen (String.length s)). lia.
Qed.

Lemma contains_escape_replace (s : string) :
  contains_escape (replace_newlines s) = false.
Proof.
  induction s as [| rest IH | c rest Hm IH] using replace_scan_ind.
  - reflexivity.
  - rewrite replace_newlines_match. cbn [contains_escape].
    now rewrite IH.
  - rewrite (replace_newlines_skip _ _ Hm). cbn [contains_escape].
    now rewrite (matches_here_replace _ _ Hm), IH.
Qed.

Lemma replace_newlines_clean (s : string) :
  contains_escape s = false -> replace_newlines s = s.
Proof.
  induction s as [|c rest IH]; [reflexivity|].
  cbn [contains_escape]. intros [Hm Hrest]%orb_false_elim.
  now rewrite (replace_newlines_skip _ _ Hm), IH.
Qed.

Lemma replace_newlines_fixed_iff (s : string) :
  replace_newlines s = s <-> contains_escape s = false.
Proof.
  split; [|apply replace_newlines_clean].
  intros E. rewrite <- E. apply contains_escape_replace.
Qed.

Lemma convert_value_fixed_iff (v : value) :
  convert_value v = v
  <-> (forall s, v = VString s -> contains_escape s = false).
Proof.
  split.
  - intros E s ->. cbn in E. apply replace_newlines_fixed_iff. congruence.
  - intros H. destruct v; try reflexivity. cbn.
    now rewrite replace_newlines_clean by now apply H.
Qed.

(** X1: a text whose lines are joined by backslash-n, the lines themselves
    free of that sequence, is turned into those lines joined by line feeds.
    More generally an occurrence of backslash-n becomes one line feed between
    the converted texts on either side of it. *)
Theorem replace_newlines_joins_lines :
  (forall a b,
      replace_newlines (a +:+ String backslash (String letter_n b))
      = replace_newlines a +:+ String newline (replace_newlines b))
  /\ (forall lines,
         Forall (fun l => contains_escape l = false) lines ->
         replace_newlines
           (String.concat (String backslash (String letter_n EmptyString)) lines)
         = String.concat (String newline EmptyString) lines).
Proof.
  split; [apply replace_newlines_split|].
  induction lines as [|l lines IH]; intros Hall; [reflexivity|].
  apply Forall_cons in Hall as [Hl Hrest].
  destruct lines as [|l' lines].
  - cbn [String.concat]. now apply replace_newlines_clean.
  - cbn [String.concat] in *.
    change (String backslash (String letter_n EmptyString) +:+ ?x)
      with (String backslash (String letter_n x)).
    change (String newline EmptyString +:+ ?x) with (String newline x).
    rewrite replace_newlines_split, (replace_newlines_clean l Hl).
    f_equal. f_equal. now apply IH.
Qed.

Lemma replace_newlines_joins_lines_witness :
  Forall (fun l => contains_escape l = false) ["-----BEGIN-----"; "MIIB"; "-----END-----"]
  /\ replace_newlines "-----BEGIN-----\nMIIB\n-----END-----"
     = String.concat (String newline EmptyString)
         ["-----BEGIN-----"; "MIIB"; "-----END-----"].
Proof.
  assert (H1 : Forall (fun l => contains_escape l = false)
                 ["-----BEGIN-----"; "MIIB"; "-----END-----"])
    by (repeat constructor).
  split; [exact H1|].
  exact (proj2 replace_newlines_joins_lines
           ["-----BEGIN-----"; "MIIB"; "-----END-----"] H1).
Defined.

(** X2: no occurrence of backslash-n is left in the output of the
    replacement, and the strings it returns unchanged are exactly those
    without an occurrence. *)
Theorem replace_newlines_leaves_no_escape (s : string) :
  contains_escape (replace_newlines s) = false
  /\ (replace_newlines s = s <-> contains_escape s = false).
Proof. split; [apply contains_escape_replace | apply replace_newlines_fixed_iff]. Qed.

Lemma replace_newlines_leaves_no_escape_witness :
  contains_escape "-----BEGIN-----" = false
  /\ replace_newlines "-----BEGIN-----" = "-----BEGIN-----".
Proof.
  assert (H1 : contains_escape "-----BEGIN-----" = false) by reflexivity.
  split; [exact H1|].
  exact (proj2 (proj2 (replace_newlines_leaves_no_escape "-----BEGIN-----")) H1).
Defined.

(** X3: the replacement never lengthens a string and at most halves it; so
    a non-empty value stays non-empty. *)
Theorem replace_newlines_length (s : string) :
  (String.length (replace_newlines s) <= String.length s
   /\ String.length s <= 2 * String.length (replace_newlines s))%nat.
Proof.
  induction s as [| rest IH | c rest Hm IH] using replace_scan_ind.
  - cbn. lia.
  - rewrite replace_newlines_match. cbn [String.length]. lia.
  - rewrite (replace_newlines_skip _ _ Hm). cbn [String.length]. lia.
Qed.

(** ** The result of [processEnvVars] *)

Lemma truthy_own_converted (o : gmap string value) (k : string) :
  truthy (own (converted o) k) = truthy (own o k).
Proof.
  rewrite own_converted.
  destruct (decide (k ∈ multilineVars)); [apply truthy_convert_value | done].
Qed.

(** The result at the two names of a pair, read off the input. *)
Lemma normalized_lower (o : gmap string value) (lower canonical : string) :
  (lower, canonical) ∈ caseVariants ->
  normalized o !! lower = if truthy (own o lower) then None else o !! lower.
Proof.
  intros Hpair. destruct (caseVariants_targeted _ _ Hpair) as [Hl _].
  unfold normalized.
  rewrite (case_merged_lower _ _ _ Hpair), truthy_own_converted.
  destruct (truthy (own o lower)) eqn:Ht; [reflexivity|].
  rewrite converted_lookup, decide_True by assumption.
  unfold own in Ht. destruct (o !! lower) as [v|]; [|reflexivity].
  cbn in *. now rewrite convert_value_falsy.
Qed.

Lemma normalized_canonical (o : gmap string value) (lower canonical : string) :
  (lower, canonical) ∈ caseVariants ->
  normalized o !! canonical
  = if truthy (own o lower) then Some (convert_value (own o lower))
    else convert_value <$> o !! canonical.
Proof.
  intros Hpair. destruct (caseVariants_targeted _ _ Hpair) as [Hl Hc].
  unfold normalized.
  rewrite (case_merged_canonical _ _ _ Hpair), truthy_own_converted.
  destruct (truthy (own o lower)).
  - now rewrite own_converted, decide_True.
  - now rewrite converted_lookup, decide_True.
Qed.

(** X4: in the result every string held under one of the six targeted names
    is free of backslash-n, whichever entry of the input it came from. *)
Theorem processEnvVars_result_has_no_escape
    (h : gmap loc (gmap string value)) (config : loc) (o : gmap string value)
    (k : string) :
  h !! config = Some o ->
  k ∈ multilineVars ->
  exists out,
    result_object (processEnvVars config h) = Some out
    /\ forall s, out !! k = Some (VString s) -> contains_escape s = false.
Proof.
  intros Hcfg Hk. exists (normalized o).
  split; [now apply processEnvVars_result|].
  intros s Hs.
  pose proof (normalized_values_converted o k _ Hk Hs) as Hfix.
  now apply (proj1 (convert_value_fixed_iff (VString s)) Hfix).
Qed.

Lemma processEnvVars_result_has_no_escape_witness :
  heap_of both_cases !! config_loc = Some both_cases
  /\ "JWT_PUBLIC_KEY" ∈ multilineVars
  /\ exists out,
      result_object (processEnvVars config_loc (heap_of both_cases)) = Some out
      /\ forall s, out !! "JWT_PUBLIC_KEY" = Some (VString s) ->
                   contains_escape s = false.
Proof.
  assert (H1 : heap_of both_cases !! config_loc = Some both_cases)
    by reflexivity.
  assert (H2 : "JWT_PUBLIC_KEY" ∈ multilineVars)
    by (unfold multilineVars; repeat constructor).
  split; [exact H1|]. split; [exact H2|].
  exact (processEnvVars_result_has_no_escape (heap_of both_cases) config_loc
           both_cases "JWT_PUBLIC_KEY" H1 H2).
Defined.

(** X5: the result never holds a truthy value under a lowercase name: the
    entry is either gone or the falsy entry of the input, as it was. *)
Theorem processEnvVars_result_has_no_truthy_lowercase
    (h : gmap loc (gmap string value)) (config : loc) (o : gmap string value)
    (lower canonical : string) :
  h !! config = Some o ->
  (lower, canonical) ∈ caseVariants ->
  exists out,
    result_object (processEnvVars config h) = Some out
    /\ truthy (own out lower) = false
    /\ (out !! lower = None \/ out !! lower = o !! lower).
Proof.
  intros Hcfg Hpair. exists (normalized o).
  split; [now apply processEnvVars_result|].
  split; [now apply (normalized_lower_falsy o lower canonical)|].
  rewrite (normalized_lower _ _ _ Hpair).
  destruct (truthy (own o lower)); auto.
Qed.

Lemma processEnvVars_result_has_no_truthy_lowercase_witness :
  heap_of both_cases !! config_loc = Some both_cases
  /\ ("jwt_public_key", "JWT_PUBLIC_KEY") ∈ caseVariants
  /\ exists out,
      result_object (processEnvVars config_loc (heap_of both_cases)) = Some out
      /\ truthy (own out "jwt_public_key") = false
      /\ (out !! "jwt_public_key" = None
          \/ out !! "jwt_public_key" = both_cases !! "jwt_public_key").
Proof.
  assert (H1 : heap_of both_cases !! config_loc = Some both_cases)
    by reflexivity.
  assert (H2 : ("jwt_public_key", "JWT_PUBLIC_KEY") ∈ caseVariants)
    by (unfold caseVariants; repeat constructor).
  split; [exact H1|]. split; [exact H2|].
  exact (processEnvVars_result_has_no_truthy_lowercase (heap_of both_cases)
           config_loc both_cases "jwt_public_key" "JWT_PUBLIC_KEY" H1 H2).
Defined.

(** X6: a lowercase entry that is absent or falsy (empty string, undefined,
    null, false, 0, NaN) overwrites nothing: it stays as it was, and the
    canonical name keeps its own value, newline-converted, or stays absent. *)
Theorem processEnvVars_falsy_lowercase_is_ignored
    (h : gmap loc (gmap string value)) (config : loc) (o : gmap string value)
    (lower canonical : string) :
  h !! config = Some o ->
  (lower, canonical) ∈ caseVariants ->
  truthy (own o lower) = false ->
  exists out,
    result_object (processEnvVars config h) = Some out
    /\ out !! lower = o !! lower
    /\ out !! canonical = convert_value <$> o !! canonical.
Proof.
  intros Hcfg Hpair Hfalsy. exists (normalized o).
  split; [now apply processEnvVars_result|].
  now rewrite (normalized_lower _ _ _ Hpair),
    (normalized_canonical _ _ _ Hpair), Hfalsy.
Qed.

Lemma processEnvVars_falsy_lowercase_is_ignored_witness :
  heap_of canonical_and_empty_lowercase !! config_loc
  = Some canonical_and_empty_lowercase
  /\ ("jwt_public_key", "JWT_PUBLIC_KEY") ∈ caseVariants
  /\ truthy (own canonical_and_empty_lowercase "jwt_public_key") = false
  /\ exists out,
      result_object
        (processEnvVars config_loc (heap_of canonical_and_empty_lowercase))
      = Some out
      /\ out !! "jwt_public_key" = Some (VString EmptyString)
      /\ out !! "JWT_PUBLIC_KEY"
         = Some (VString (String "x" (String newline "y"))).
Proof.
  assert (H1 : heap_of canonical_and_empty_lowercase !! config_loc
               = Some canonical_and_empty_lowercase) by reflexivity.
  assert (H2 : ("jwt_public_key", "JWT_PUBLIC_KEY") ∈ caseVariants)
    by (unfold caseVariants; repeat constructor).
  assert (H3 : truthy (own canonical_and_empty_lowercase "jwt_public_key")
               = false) by reflexivity.
  split; [exact H1|]. split; [exact H2|]. split; [exact H3|].
  exact (processEnvVars_falsy_lowercase_is_ignored
           (heap_of canonical_and_empty_lowercase) config_loc
           canonical_and_empty_lowercase "jwt_public_key" "JWT_PUBLIC_KEY"
           H1 H2 H3).
Defined.

Lemma already_normalized_clean (k : string) (s : string) :
  k ∈ multilineVars ->
  already_normalized !! k = Some (VString s) ->
  contains_escape s = false.
Proof.
  unfold multilineVars. rewrite !elem_of_cons, elem_of_nil.
  intros [->|[->|[->|[->|[->|[->|[]]]]]]] H; vm_compute in H;
    try discriminate H; injection H as <-; reflexivity.
Defined.

Lemma already_normalized_lowercase (lower canonical : string) :
  (lower, canonical) ∈ caseVariants ->
  truthy (own already_normalized lower) = false.
Proof.
  intros [[-> ->]|[[-> ->]|[-> ->]]]%caseVariants_cases; reflexivity.
Defined.

(** X7: the configurations the normalizer returns unchanged are exactly
    those in which no targeted string contains backslash-n and no lowercase
    entry is truthy. *)
Theorem processEnvVars_fixed_points
    (h : gmap loc (gmap string value)) (config : loc) (o : gmap string value) :
  h !! config = Some o ->
  result_object (processEnvVars config h) = Some o
  <-> (forall k s, k ∈ multilineVars -> o !! k = Some (VString s) ->
                  contains_escape s = false)
      /\ (forall lower canonical,
             (lower, canonical) ∈ caseVariants ->
             truthy (own o lower) = false).
Proof.
  intros Hcfg. rewrite (processEnvVars_result config h o Hcfg). split.
  - intros [= E]. split.
    + intros k s Hk Hs. rewrite <- E in Hs.
      pose proof (normalized_values_converted o k _ Hk Hs) as Hfix.
      now apply (proj1 (convert_value_fixed_iff (VString s)) Hfix).
    + intros lower canonical Hpair. rewrite <- E.
      now apply (normalized_lower_falsy o lower canonical).
  - intros [Hclean Hlower]. f_equal. unfold normalized.
    rewrite converted_id; [now apply case_merged_id|].
    intros k v Hk Hv. apply convert_value_fixed_iff.
    intros s ->. now apply (Hclean k).
Qed.

Lemma processEnvVars_fixed_points_witness :
  heap_of already_normalized !! config_loc = Some already_normalized
  /\ (forall k s, k ∈ multilineVars ->
                  already_normalized !! k = Some (VString s) ->
                  contains_escape s = false)
  /\ (forall lower canonical,
         (lower, canonical) ∈ caseVariants ->
         truthy (own already_normalized lower) = false)
  /\ result_object (processEnvVars config_loc (heap_of already_normalized))
     = Some already_normalized.
Proof.
  assert (H1 : heap_of already_normalized !! config_loc
               = Some already_normalized) by reflexivity.
  split; [exact H1|]. split; [exact already_normalized_clean|].
  split; [exact already_normalized_lowercase|].
  exact (proj2 (processEnvVars_fixed_points (heap_of already_normalized)
                  config_loc already_normalized H1)
           (conj already_normalized_clean already_normalized_lowercase)).
Defined.

Lemma size_convert_entry (k : string) (o : gmap string value) :
  size (convert_entry k o) = size o.
Proof.
  unfold convert_entry.
  destruct (truthy (own o k)) eqn:Ht; cbn [andb]; [|reflexivity].
  destruct (String.eqb (typeof (own o k)) "string"); [|reflexivity].
  apply map_size_insert_Some. rewrite (own_truthy_lookup _ _ Ht). eauto.
Qed.

Lemma size_converted (o : gmap string value) : size (converted o) = size o.
Proof.
  unfold converted. generalize multilineVars. intros vars. revert o.
  induction vars as [|x vars IH]; intros o; cbn [foldl]; [reflexivity|].
  now rewrite IH, size_convert_entry.
Qed.

Lemma size_merge_entry (lower canonical : string) (o : gmap string value) :
  lower <> canonical ->
  (size (merge_entry lower canonical o) <= size o)%nat.
Proof.
  intros Hne. unfold merge_entry.
  destruct (truthy (own o lower)) eqn:Ht; [|lia].
  rewrite map_size_delete_Some
    by (rewrite lookup_insert_ne by congruence;
        rewrite (own_truthy_lookup _ _ Ht); eauto).
  rewrite map_size_insert. destruct (o !! canonical); cbn; lia.
Qed.

Lemma size_case_merged (o : gmap string value) :
  (size (case_merged o) <= size o)%nat.
Proof.
  unfold case_merged.
  etransitivity; [apply size_merge_entry; discriminate|].
  etransitivity; [apply size_merge_entry; discriminate|].
  apply size_merge_entry; discriminate.
Qed.

(** X8: the normalizer invents no entry: the result has at most as many
    entries as the input, and a name bound in the result was bound in the
    input or is the canonical name of a truthy lowercase entry. *)
Theorem processEnvVars_adds_no_entries
    (h : gmap loc (gmap string value)) (config : loc) (o : gmap string value) :
  h !! config = Some o ->
  exists out,
    result_object (processEnvVars config h) = Some out
    /\ (size out <= size o)%nat
    /\ forall k,
         is_Some (out !! k) ->
         is_Some (o !! k)
         \/ exists lower, (lower, k) ∈ caseVariants
                          /\ truthy (own o lower) = true.
Proof.
  intros Hcfg. exists (normalized o).
  split; [now apply processEnvVars_result|]. split.
  - unfold normalized. etransitivity; [apply size_case_merged|].
    now rewrite size_converted.
  - intros k Hk. destruct (decide (k ∈ multilineVars)) as [Hin|Hnin].
    + destruct (targeted_cases k Hin) as (lower & canonical & Hpair & [-> | ->]).
      * rewrite (normalized_lower _ _ _ Hpair) in Hk.
        destruct (truthy (own o lower)); [|now left].
        now destruct Hk.
      * rewrite (normalized_canonical _ _ _ Hpair) in Hk.
        destruct (truthy (own o lower)) eqn:Ht; [right; eauto|].
        left. now apply fmap_is_Some in Hk.
    + left. now rewrite (normalized_other _ _ Hnin) in Hk.
Qed.

Lemma processEnvVars_adds_no_entries_witness :
  heap_of both_cases !! config_loc = Some both_cases
  /\ exists out,
      result_object (processEnvVars config_loc (heap_of both_cases)) = Some out
      /\ (size out <= size both_cases)%nat
      /\ forall k,
           is_Some (out !! k) ->
           is_Some (both_cases !! k)
           \/ exists lower, (lower, k) ∈ caseVariants
                            /\ truthy (own both_cases lower) = true.
Proof.
  assert (H1 : heap_of both_cases !! config_loc = Some both_cases)
    by reflexivity.
  split; [exact H1|].
  exact (processEnvVars_adds_no_entries (heap_of both_cases) config_loc
           both_cases H1).
Defined.

Lemma multilineVars_shuffled_same (k : string) :
  k ∈ multilineVars_shuffled <-> k ∈ multilineVars.
Proof.
  unfold multilineVars_shuffled, multilineVars.
  rewrite !elem_of_cons, !elem_of_nil. tauto.
Defined.

(** X9: the callbacks of the loop do not interfere: listing the same names
    in another order, or some of them more than once, leaves the same heap. *)
Theorem convertNewlines_order_irrelevant
    (vars : list string) (processed : loc)
    (h : gmap loc (gmap string value)) (o : gmap string value) :
  (forall k, k ∈ vars <-> k ∈ multilineVars) ->
  h !! processed = Some o ->
  forEach vars (convertVar processed) h = convertNewlines processed h.
Proof.
  intros Hsame Hp.
  rewrite (convertNewlines_updates processed h o Hp).
  rewrite (forEach_updates processed (convertVar processed) convert_entry vars
             (convertVar_updates processed) h o Hp).
  do 3 f_equal. apply map_eq. intros k.
  rewrite convert_all_lookup, converted_lookup.
  destruct (decide (k ∈ vars)) as [Hin|Hnin].
  - now rewrite decide_True by now apply Hsame.
  - rewrite decide_False; [done|]. intros Hin. now apply Hnin, Hsame.
Qed.

Lemma convertNewlines_order_irrelevant_witness :
  (forall k, k ∈ multilineVars_shuffled <-> k ∈ multilineVars)
  /\ heap_of both_cases !! config_loc = Some both_cases
  /\ forEach multilineVars_shuffled (convertVar config_loc) (heap_of both_cases)
     = convertNewlines config_loc (heap_of both_cases).
Proof.
  assert (H2 : heap_of both_cases !! config_loc = Some both_cases)
    by reflexivity.
  split; [exact multilineVars_shuffled_same|]. split; [exact H2|].
  exact (convertNewlines_order_irrelevant multilineVars_shuffled config_loc
           (heap_of both_cases) both_cases multilineVars_shuffled_same H2).
Defined.

Lemma own_insert_ne (o : gmap string value) (k k' : string) (v : value) :
  k <> k' -> own (<[k := v]> o) k' = own o k'.
Proof. intros Hne. unfold own. now rewrite lookup_insert_ne. Qed.

Lemma normalized_insert_other (o : gmap string value) (k : string) (v : value) :
  k ∉ multilineVars ->
  normalized (<[k := v]> o) = <[k := v]> (normalized o).
Proof.
  intros Hk. apply map_eq. intros k'.
  destruct (decide (k' ∈ multilineVars)) as [Hin|Hnin].
  - assert (Hne : k <> k') by (intros ->; contradiction).
    rewrite (lookup_insert_ne (normalized o)) by assumption.
    destruct (targeted_cases k' Hin) as (lower & canonical & Hpair & Hcase).
    destruct (caseVariants_targeted _ _ Hpair) as [Hl Hc].
    assert (Hlow : k <> lower) by (intros ->; contradiction).
    destruct Hcase as [-> | ->].
    + rewrite !(normalized_lower _ _ _ Hpair), own_insert_ne by assumption.
      now rewrite lookup_insert_ne.
    + rewrite !(normalized_canonical _ _ _ Hpair), own_insert_ne by assumption.
      now rewrite lookup_insert_ne.
  - rewrite (normalized_other _ _ Hnin), !lookup_insert.
    destruct (decide (k = k')); [done|]. now rewrite normalized_other.
Qed.

(** X10: entries outside the six names do not take part in the
    normalization: setting such an entry in the input sets it in the result
    and changes nothing else there. *)
Theorem processEnvVars_unrelated_entry
    (h : gmap loc (gmap string value)) (config : loc) (o : gmap string value)
    (k : string) (v : value) :
  h !! config = Some o ->
  k ∉ multilineVars ->
  exists out,
    result_object (processEnvVars config h) = Some out
    /\ result_object (processEnvVars config (<[config := <[k := v]> o]> h))
       = Some (<[k := v]> out).
Proof.
  intros Hcfg Hk. exists (normalized o).
  split; [now apply processEnvVars_result|].
  rewrite (processEnvVars_result config _ (<[k := v]> o))
    by apply lookup_insert_eq.
  f_equal. now apply normalized_insert_other.
Qed.

Lemma processEnvVars_unrelated_entry_witness :
  heap_of both_cases !! config_loc = Some both_cases
  /\ ("PORT" ∉ multilineVars)
  /\ exists out,
      result_object (processEnvVars config_loc (heap_of both_cases)) = Some out
      /\ result_object
           (processEnvVars config_loc
              (<[config_loc := <["PORT" := VString "3000"]> both_cases]>
                 (heap_of both_cases)))
         = Some (<["PORT" := VString "3000"]> out).
Proof.
  assert (H1 : heap_of both_cases !! config_loc = Some both_cases)
    by reflexivity.
  assert (H2 : "PORT" ∉ multilineVars).
  { unfold multilineVars. rewrite !not_elem_of_cons.
    repeat split; try discriminate. apply not_elem_of_nil. }
  split; [exact H1|]. split; [exact H2|].
  exact (processEnvVars_unrelated_entry (heap_of both_cases) config_loc
           both_cases "PORT" (VString "3000") H1 H2).
Defined.

(** ** getEnvPath *)

(** X11: any non-empty mode is used as it is: nothing restricts NODE_ENV to
    a known list, and the file is always [.<mode>.env] under the given
    directory. *)
Theorem getEnvPath_any_mode (resolve : string -> string)
    (process_env : gmap string string) (dest mode : string) :
  process_env !! "NODE_ENV" = Some mode ->
  mode <> EmptyString ->
  getEnvPath resolve process_env dest
  = Ok (resolve (((dest +:+ "/.") +:+ mode) +:+ ".env")).
Proof.
  intros Henv Hmode. rewrite getEnvPath_run, Henv.
  destruct mode as [|c mode]; [contradiction|].
  cbn [or_default string_is_empty]. now rewrite !append_assoc.
Qed.

Lemma getEnvPath_any_mode_witness :
  ({[ "NODE_ENV" := "staging-eu" ]} : gmap string string) !! "NODE_ENV"
  = Some "staging-eu"
  /\ "staging-eu" <> EmptyString
  /\ getEnvPath (fun s => s) {[ "NODE_ENV" := "staging-eu" ]} "/srv/envs"
     = Ok "/srv/envs/.staging-eu.env".
Proof.
  assert (H1 : ({[ "NODE_ENV" := "staging-eu" ]} : gmap string string)
               !! "NODE_ENV" = Some "staging-eu") by reflexivity.
  assert (H2 : "staging-eu" <> EmptyString) by discriminate.
  split; [exact H1|]. split; [exact H2|].
  exact (getEnvPath_any_mode (fun s => s) {[ "NODE_ENV" := "staging-eu" ]}
           "/srv/envs" "staging-eu" H1 H2).
Defined.

(** X12: setting NODE_ENV to development selects the same file as leaving
    it unset. *)
Theorem getEnvPath_development_is_default (resolve : string -> string)
    (process_env : gmap string string) (dest : string) :
  process_env !! "NODE_ENV" = Some "development" ->
  getEnvPath resolve process_env dest
  = getEnvPath resolve (delete "NODE_ENV" process_env) dest.
Proof.
  intros Henv. now rewrite !getEnvPath_run, Henv, lookup_delete_eq.
Qed.

Lemma getEnvPath_development_is_default_witness :
  ({[ "NODE_ENV" := "development"; "PORT" := "3000" ]} : gmap string string)
    !! "NODE_ENV" = Some "development"
  /\ getEnvPath (fun s => s) {[ "NODE_ENV" := "development"; "PORT" := "3000" ]}
       "/srv/envs"
     = getEnvPath (fun s => s)
         (delete "NODE_ENV" {[ "NODE_ENV" := "development"; "PORT" := "3000" ]})
         "/srv/envs".
Proof.
  assert (H1 : ({[ "NODE_ENV" := "development"; "PORT" := "3000" ]}
                : gmap string string) !! "NODE_ENV" = Some "development")
    by reflexivity.
  split; [exact H1|].
  exact (getEnvPath_development_is_default (fun s => s)
           {[ "NODE_ENV" := "development"; "PORT" := "3000" ]} "/srv/envs" H1).
Defined.
